(** * Downtime Activities: the item record, outcome resolution and the
    sheet's button handlers of [downtime-module.js], as a shallow
    embedding.

    The item is a record, the host's services (localisation, dice
    engine, the rendering of numbers) are parameters, and every handler
    is a function from the item to the new item together with the
    chronological list of what the host did for it (accepted updates,
    chat messages, notifications, re-renders). *)

From Stdlib Require Import ZArith QArith String Ascii List Lia.
From stdpp Require Import base list strings pretty.

Set Warnings "-register-all".

Close Scope Q_scope.

Local Open Scope string_scope.
Local Open Scope list_scope.

(** ** The JavaScript built-ins the sheet relies on *)

Module Js.

(** What [parseInt] can return: [NaN] or an integer.  (Doubles: the
    integer is kept exact here; [splice] only compares it with the
    array length, so the rounding above 2^53 is never observed.) *)
Inductive number : Type :=
| NaN : number
| Int : Z → number.

(** A JavaScript string is held as its UTF-8 bytes.

    [StrWhiteSpaceChar] in one byte: TAB, LF, VT, FF, CR and the
    space. *)
Definition isWhiteSpace (c : ascii) : bool :=
  let n := nat_of_ascii c in
  (Nat.leb 9 n && Nat.leb n 13) || Nat.eqb n 32.

(** Third byte of the [StrWhiteSpaceChar]s that start with the bytes
    226 128: U+2000 to U+200A, the line and paragraph separators U+2028
    and U+2029, and U+202F. *)
Definition isGeneralPunctuationSpace (c : ascii) : bool :=
  let n := nat_of_ascii c in
  (Nat.leb 128 n && Nat.leb n 138) || Nat.eqb n 168 || Nat.eqb n 169
  || Nat.eqb n 175.

(** The string without the [StrWhiteSpaceChar]s it starts with: those
    of one byte, U+00A0 (194 160), U+1680 (225 154 128), those of
    [isGeneralPunctuationSpace], U+205F (226 129 159), U+3000
    (227 128 128) and U+FEFF (239 187 191). *)
Fixpoint trimStart (s : string) : string :=
  match s with
  | String c rest =>
      if isWhiteSpace c then trimStart rest
      else
        match s with
        | String "194" (String "160" rest') => trimStart rest'
        | String "225" (String "154" (String "128" rest')) => trimStart rest'
        | String "226" (String "128" (String c3 rest')) =>
            if isGeneralPunctuationSpace c3 then trimStart rest' else s
        | String "226" (String "129" (String "159" rest')) => trimStart rest'
        | String "227" (String "128" (String "128" rest')) => trimStart rest'
        | String "239" (String "187" (String "191" rest')) => trimStart rest'
        | _ => s
        end
  | EmptyString => s
  end.

(** Value of a digit character in radix up to 36. *)
Definition digitValue (c : ascii) : option Z :=
  let n := Z.of_nat (nat_of_ascii c) in
  if (48 <=? n)%Z && (n <=? 57)%Z then Some (n - 48)%Z
  else if (97 <=? n)%Z && (n <=? 122)%Z then Some (n - 87)%Z
  else if (65 <=? n)%Z && (n <=? 90)%Z then Some (n - 55)%Z
  else None.

(** The longest prefix of radix-[R] digits, as a number; [acc] is
    [None] until a first digit was read. *)
Fixpoint parseDigits (R : Z) (s : string) (acc : option Z) : option Z :=
  match s with
  | String c rest =>
      match digitValue c with
      | Some d =>
          if (d <? R)%Z
          then parseDigits R rest (Some (R * default 0%Z acc + d)%Z)
          else acc
      | None => acc
      end
  | EmptyString => acc
  end.

(** [parseInt(string)] with no radix argument.  [None] is
    [undefined], whose string form holds no digit. *)
Definition parseInt (input : option string) : number :=
  match input with
  | None => NaN
  | Some inputString =>
      let S0 := trimStart inputString in
      let '(sign, S1) :=
        match S0 with
        | String "-" rest => ((-1)%Z, rest)
        | String "+" rest => (1%Z, rest)
        | _ => (1%Z, S0)
        end in
      let '(R, S2) :=
        match S1 with
        | String "0" (String "x" rest) => (16%Z, rest)
        | String "0" (String "X" rest) => (16%Z, rest)
        | _ => (10%Z, S1)
        end in
      match parseDigits R S2 None with
      | None => NaN
      | Some mathInt => Int (sign * mathInt)
      end
  end.

(** [ToIntegerOrInfinity] on the numbers above. *)
Definition toIntegerOrInfinity (n : number) : Z :=
  match n with
  | NaN => 0%Z
  | Int z => z
  end.

(** [Array.prototype.splice(start, deleteCount)] with nothing to
    insert: the array as it is left behind.  A negative [start]
    counts from the end, and both ends are clamped to the array. *)
Definition splice {A : Type} (array : list A) (start : number) (deleteCount : Z)
  : list A :=
  let len := Z.of_nat (length array) in
  let relativeStart := toIntegerOrInfinity start in
  let actualStart :=
    if (relativeStart <? 0)%Z then Z.max (len + relativeStart) 0
    else Z.min relativeStart len in
  let actualDeleteCount := Z.min (Z.max deleteCount 0) (len - actualStart) in
  take (Z.to_nat actualStart) array
    ++ drop (Z.to_nat (actualStart + actualDeleteCount)) array.

(** Truthiness of a value that is a string or [undefined]. *)
Definition truthy (v : option string) : bool :=
  match v with
  | None => false
  | Some "" => false
  | Some _ => true
  end.

(** A Number as comparisons see it: not a number, an infinity, or a
    finite value, which is a rational (which rationals are doubles
    plays no part below). *)
Inductive float : Type :=
| NotANumber : float
| Infinity (negative : bool) : float
| Finite (q : Q) : float.

(** An integer as a Number. *)
Definition ofZ (z : Z) : float := Finite (inject_Z z).

(** [x >= y] and [x <= y] for a Number [x] and an integer [y]. *)
Definition ge (x : float) (y : Z) : bool :=
  match x with
  | NotANumber => false
  | Infinity negative => negb negative
  | Finite q => Qle_bool (inject_Z y) q
  end.

Definition le (x : float) (y : Z) : bool :=
  match x with
  | NotANumber => false
  | Infinity negative => negative
  | Finite q => Qle_bool q (inject_Z y)
  end.

End Js.

Coercion Js.ofZ : Z >-> Js.float.
Bind Scope Z_scope with Js.float.

(** ** The data model ([defineSchema]) *)

(** One outcome breakpoint of the [outcomes] array. *)
Record OutcomeRange : Type := mkOutcome {
  minRoll : Z;
  maxRoll : Z;
  description : string
}.

(** The [system] object of a downtime activity.  [rollDie] is [None]
    when the property is [undefined]. *)
Record System : Type := mkSystem {
  sys_description : string;
  duration : string;
  cost : string;
  isComplete : bool;
  rollDie : option string;
  currentOutcome : string;
  outcomes : list OutcomeRange
}.

(** The item document: its name, the actor that owns it (if any) and
    the [system] data. *)
Record Item : Type := mkItem {
  name : string;
  actor : option string;
  system : System
}.

(** Plain data, as the host's schema fields exchange it. *)
Inductive Value : Type :=
| VString : string → Value
| VBoolean : bool → Value
| VNumber : Z → Value
| VArray : list Value → Value
| VObject : list (string * Value) → Value
| VFloat : Js.float → Value.

(** The field constructors of [foundry.data.fields] that [defineSchema]
    uses, with the options it passes. *)
Inductive DataField : Type :=
| HTMLField (initial : string) (label : string)
| StringField (initial : string) (label : string)
| BooleanField (initial : bool) (label : string)
| NumberField (initial : Z) (integer : bool) (min : Z) (label : string)
| ArrayField (element : DataField) (initial : list Value) (label : string)
| SchemaField (fields : list (string * DataField)).

(** [schema.system], lines 26-43. *)
Definition systemSchema : DataField :=
  SchemaField
    [ ("description", HTMLField "" "DOWNTIME.Description");
      ("duration", StringField "1 day" "DOWNTIME.Duration");
      ("cost", StringField "0" "DOWNTIME.Cost");
      ("isComplete", BooleanField false "DOWNTIME.Completed");
      ("rollDie", StringField "1d20" "DOWNTIME.RollDie");
      ("currentOutcome", HTMLField "" "DOWNTIME.CurrentOutcome");
      ("outcomes",
        ArrayField
          (SchemaField
             [ ("minRoll", NumberField 1 true 0 "DOWNTIME.MinRoll");
               ("maxRoll", NumberField 20 true 0 "DOWNTIME.MaxRoll");
               ("description", HTMLField "" "DOWNTIME.OutcomeDescription") ])
          [ VObject [("minRoll", VNumber 1); ("maxRoll", VNumber 7);
                     ("description", VString "")];
            VObject [("minRoll", VNumber 8); ("maxRoll", VNumber 15);
                     ("description", VString "")];
            VObject [("minRoll", VNumber 16); ("maxRoll", VNumber 20);
                     ("description", VString "")] ]
          "DOWNTIME.Outcomes") ].

(** The value a field takes when a document is created without data for
    it: its [initial] option; for a schema, the object of its fields'
    initial values. *)
Fixpoint getInitialValue (f : DataField) : Value :=
  match f with
  | HTMLField initial _ => VString initial
  | StringField initial _ => VString initial
  | BooleanField initial _ => VBoolean initial
  | NumberField initial _ _ _ => VNumber initial
  | ArrayField _ initial _ => VArray initial
  | SchemaField fields =>
      VObject (map (λ kf, match kf with (k, g) => (k, getInitialValue g) end) fields)
  end.

(** Property access on plain data. *)
Fixpoint property (key : string) (fields : list (string * Value)) : option Value :=
  match fields with
  | [] => None
  | (k, v) :: rest => if String.eqb k key then Some v else property key rest
  end.

Definition asObject (v : Value) : option (list (string * Value)) :=
  match v with VObject o => Some o | _ => None end.
Definition asString (v : Value) : option string :=
  match v with VString s => Some s | _ => None end.
Definition asBoolean (v : Value) : option bool :=
  match v with VBoolean b => Some b | _ => None end.
Definition asNumber (v : Value) : option Z :=
  match v with VNumber z => Some z | _ => None end.
Definition asArray (v : Value) : option (list Value) :=
  match v with VArray a => Some a | _ => None end.

(** Reading plain data back as the typed records above. *)
Definition readOutcome (v : Value) : option OutcomeRange :=
  o ← asObject v;
  lo ← property "minRoll" o ≫= asNumber;
  hi ← property "maxRoll" o ≫= asNumber;
  d ← property "description" o ≫= asString;
  Some (mkOutcome lo hi d).

Definition readSystem (v : Value) : option System :=
  o ← asObject v;
  de ← property "description" o ≫= asString;
  du ← property "duration" o ≫= asString;
  co ← property "cost" o ≫= asString;
  ic ← property "isComplete" o ≫= asBoolean;
  rd ← property "rollDie" o ≫= asString;
  cu ← property "currentOutcome" o ≫= asString;
  arr ← property "outcomes" o ≫= asArray;
  os ← mapM (M := option) readOutcome arr;
  Some (mkSystem de du co ic (Some rd) cu os).

(** The [system] data of a newly created item. *)
Definition createSystem : option System :=
  readSystem (getInitialValue systemSchema).

(** A newly created item, given the name and owner the host assigns. *)
Definition createItem (name : string) (actor : option string) : option Item :=
  mkItem name actor <$> createSystem.

(** ** The host's services *)

(** [game.i18n]: text lookup by key, and lookup with named data filled
    in.  Both are owned by the host and opaque here. *)
Class I18n : Type := {
  localize : string → string;
  format : string → list (string * Value) → string
}.

(** A host with no translation loaded answers every key with the key. *)
Definition untranslated : I18n :=
  {| localize := λ key, key; format := λ key _, key |}.

(** How the JavaScript runtime writes a Number inside a template
    literal ([Number::toString]); taken as given. *)
Class NumberToString : Type := numberToString : Js.float → string.

(** The rendering the examples run with: right on the whole numbers
    below 10^21 in size, which are written in decimal; the examples use
    no other number. *)
Definition wholeNumbers : NumberToString :=
  λ x,
    match x with
    | Js.Finite q => pretty (Qnum q / Zpos (Qden q))%Z
    | Js.Infinity negative => if negative then "-Infinity" else "Infinity"
    | Js.NotANumber => "NaN"
    end.

#[global] Existing Instance wholeNumbers.

(** An evaluated [Roll]: the formula it was built from and its total,
    any Number. *)
Record Roll : Type := mkRoll {
  formula : option string;
  total : Js.float
}.

(** The host calls of the try block of [rollDowntimeActivity] that
    come after the dice: the lookup of line 81 and the awaited update
    of line 87; the calls that build and post the chat message, lines
    90-100; the notification of line 102. *)
Inductive Stage : Type := Updating | Posting | Notifying.

(** How the host calls of the try block (lines 69-103) go for one roll:
    - [Resolved roll]: [await new Roll(expression).evaluate] gives
      [roll], and every later call returns;
    - [Thrown m]: building or evaluating the roll throws [m];
    - [Interrupted roll stage m]: the dice give [roll], the calls before
      [stage] return, and a call of [stage] throws [m] (at [Updating],
      the update is rejected and the document is left as it was). *)
Inductive Evaluation : Type :=
| Resolved (roll : Roll)
| Thrown (err_message : string)
| Interrupted (roll : Roll) (stage : Stage) (err_message : string).

(** The host during a roll: the expression is handed over as the
    property holds it. *)
Definition DiceEngine : Type := option string → Evaluation.

(** The three single-key changes this module submits to
    [Document#update]. *)
Inductive Change : Type :=
| SystemCurrentOutcome (outcomeText : string)
| SystemIsComplete (flag : bool)
| SystemOutcomes (outcomes : list OutcomeRange).

Inductive Level : Type := info | warn | error.

(** What the host did for a handler, in order; [DocumentUpdate] is an
    update the host accepted. *)
Inductive Effect : Type :=
| PreventDefault
| Notification (level : Level) (message : string)
| ConsoleError (prefix : string) (err_message : string)
| ChatMessageCreate (content : string) (speaker_actor : option string)
    (roll : option Roll)
| DocumentUpdate (change : Change)
| Render (force : bool).

(** The host merges a submitted change into the document; the data is
    already of the field's type, so the merge goes through. *)
Definition applyChange (c : Change) (this : Item) : Item :=
  let s := system this in
  let s' :=
    match c with
    | SystemCurrentOutcome outcomeText =>
        mkSystem (sys_description s) (duration s) (cost s) (isComplete s)
          (rollDie s) outcomeText (outcomes s)
    | SystemIsComplete flag =>
        mkSystem (sys_description s) (duration s) (cost s) flag
          (rollDie s) (currentOutcome s) (outcomes s)
    | SystemOutcomes os =>
        mkSystem (sys_description s) (duration s) (cost s) (isComplete s)
          (rollDie s) (currentOutcome s) os
    end in
  mkItem (name this) (actor this) s'.

(** A method of the item (or of its sheet): from the item as it is to a
    result, the item as it is left, and the effects asked for. *)
Definition Host (A : Type) : Type := Item → A * Item * list Effect.

#[global] Instance host_ret : MRet Host := λ A a this, (a, this, []).

#[global] Instance host_bind : MBind Host := λ A B f m this,
  let '(a, this1, effs1) := m this in
  let '(b, this2, effs2) := f a this1 in
  (b, this2, effs1 ++ effs2).

Definition getThis : Host Item := λ this, (this, this, []).

Definition emit (e : Effect) : Host unit := λ this, (tt, this, [e]).

(** [await this.update({key: value})] *)
Definition update (c : Change) : Host unit :=
  λ this, (tt, applyChange c this, [DocumentUpdate c]).

(** A run of calls inside [try]: it ends with a value, or with the
    message of what was thrown; the item and the effects are those
    reached by then. *)
Definition Try (A : Type) : Type := Item → (string + A) * Item * list Effect.

#[global] Instance try_ret : MRet Try := λ A a this, (inr a, this, []).

#[global] Instance try_bind : MBind Try := λ A B f m this,
  let '(r, this1, effs1) := m this in
  match r with
  | inl err_message => (inl err_message, this1, effs1)
  | inr a =>
      let '(r2, this2, effs2) := f a this1 in
      (r2, this2, effs1 ++ effs2)
  end.

Definition throw {A} (err_message : string) : Try A :=
  λ this, (inl err_message, this, []).

(** A call that returns. *)
Definition returning {A} (m : Host A) : Try A :=
  λ this, let '(a, this1, effs1) := m this in (inr a, this1, effs1).

(** [try { body } catch (err) { handler(err.message) }] *)
Definition tryCatch (body : Try unit) (handler : string → Host unit) : Host unit :=
  λ this,
    let '(r, this1, effs1) := body this in
    match r with
    | inr a => (a, this1, effs1)
    | inl err_message =>
        let '(b, this2, effs2) := handler err_message this1 in
        (b, this2, effs1 ++ effs2)
    end.

(** The roll the dice give, or the throw of the evaluation. *)
Definition evaluated (host : Evaluation) : Try Roll :=
  match host with
  | Resolved roll | Interrupted roll _ _ => mret roll
  | Thrown err_message => throw err_message
  end.

(** The host calls of [stage]: they return, or throw as [host] says. *)
Definition reaching (host : Evaluation) (stage : Stage) : Try unit :=
  match host, stage with
  | Interrupted _ Updating err_message, Updating
  | Interrupted _ Posting err_message, Posting
  | Interrupted _ Notifying err_message, Notifying => throw err_message
  | _, _ => mret tt
  end.

(** The item a method leaves behind, and the effects it asked for. *)
Definition itemAfter {A} (m : Host A) (this : Item) : Item := (m this).1.2.
Definition effectsOf {A} (m : Host A) (this : Item) : list Effect := (m this).2.

(** More built-ins: a template literal's rendering of a value,
    [Array.prototype.push], and the host's [deepClone] (plain data has
    no identity here, so a copy is the value itself; what matters is
    that the item's own array is not touched before [update]). *)
Definition toStringOpt (v : option string) : string := default "undefined" v.
Definition push {A} (array : list A) (x : A) : list A := array ++ [x].
Definition deepClone {A} (x : A) : A := x.
Definition newline : string := String (ascii_of_nat 10) EmptyString.

(** ** [DowntimeActivity] *)

(** Lines 73-79: the scan for the first range holding the roll. *)
Fixpoint matchedOutcome (rollResult : Js.float) (outcomes : list OutcomeRange)
  : option OutcomeRange :=
  match outcomes with
  | [] => None
  | outcome :: rest =>
      if Js.ge rollResult (minRoll outcome) && Js.le rollResult (maxRoll outcome)
      then Some outcome
      else matchedOutcome rollResult rest
  end.

(** Lines 73-84: the text of the matched range, or the localised
    "no outcome found" text. *)
Definition outcomeText `{I18n} (rollResult : Js.float) (outcomes : list OutcomeRange)
  : string :=
  match matchedOutcome rollResult outcomes with
  | Some matched => description matched
  | None => localize "DOWNTIME.NoOutcomeFound"
  end.

(** Lines 90-94. *)
Definition chatContent `{I18n} `{NumberToString} (this : Item) (rollResult : Js.float)
  (rollExpression : option string) (text : string) : string :=
  newline +:+ "        <h2>" +:+ name this +:+ " - "
    +:+ localize "DOWNTIME.ActivityRoll" +:+ "</h2>"
  +:+ newline +:+ "        <p>" +:+ localize "DOWNTIME.Rolled" +:+ ": <strong>"
    +:+ numberToString rollResult +:+ "</strong> (" +:+ toStringOpt rollExpression
    +:+ ")</p>"
  +:+ newline +:+ "        <div>" +:+ localize "DOWNTIME.Outcome" +:+ ": "
    +:+ text +:+ "</div>"
  +:+ newline +:+ "      ".

(** [rollDowntimeActivity], lines 62-108. *)
Definition rollDowntimeActivity `{I18n} `{NumberToString} (evaluate : DiceEngine)
  : Host unit :=
  this ← getThis;
  let rollExpression := rollDie (system this) in
  if negb (Js.truthy rollExpression) then
    emit (Notification warn (localize "DOWNTIME.NoRollDieWarning"))
  else
    let host := evaluate rollExpression in
    tryCatch
      (roll ← evaluated host;
       let rollResult := total roll in
       let text := outcomeText rollResult (outcomes (system this)) in
       reaching host Updating;;
       returning (update (SystemCurrentOutcome text));;
       this ← returning getThis;
       reaching host Posting;;
       returning
         (emit (ChatMessageCreate
                  (chatContent this rollResult rollExpression text)
                  (actor this) (Some roll)));;
       reaching host Notifying;;
       returning
         (emit (Notification info
                  (format "DOWNTIME.RollCompleteNotification"
                     [("name", VString (name this)); ("roll", VFloat rollResult)]))))
      (λ err_message,
         emit (ConsoleError "Downtime Activities | Failed to roll downtime activity:"
                 err_message);;
         emit (Notification error
                 (format "DOWNTIME.RollError" [("error", VString err_message)]))).

(** [performActivity], lines 114-122. *)
Definition performActivity `{I18n} : Host unit :=
  update (SystemIsComplete true);;
  this ← getThis;
  emit (ChatMessageCreate
          (format "DOWNTIME.ActivityCompletedChat"
             [("name", VString (name this));
              ("outcome", VString (currentOutcome (system this)))])
          (actor this) None);;
  emit (Notification info
          (format "DOWNTIME.ActivityCompletedNotification"
             [("name", VString (name this))])).

(** ** [DowntimeActivitySheet.activateListeners]: the four click
    handlers, lines 164-194.  [this.item] is the item the sheet shows. *)

Definition onCompleteClick `{I18n} : Host unit :=
  emit PreventDefault;;
  performActivity;;
  emit (Render true).

Definition onRollClick `{I18n} `{NumberToString} (evaluate : DiceEngine) : Host unit :=
  emit PreventDefault;;
  rollDowntimeActivity evaluate;;
  emit (Render true).

Definition onAddOutcomeClick : Host unit :=
  emit PreventDefault;;
  item ← getThis;
  let outcomes0 := deepClone (outcomes (system item)) in
  let outcomes1 := push outcomes0 (mkOutcome 1 20 "") in
  update (SystemOutcomes outcomes1);;
  emit (Render true).

(** [dataset_index] is [ev.currentTarget.dataset.index]: a string, or
    [None] when the attribute is absent. *)
Definition onRemoveOutcomeClick (dataset_index : option string) : Host unit :=
  emit PreventDefault;;
  let index := Js.parseInt dataset_index in
  item ← getThis;
  let outcomes0 := deepClone (outcomes (system item)) in
  let outcomes1 := Js.splice outcomes0 index 1 in
  update (SystemOutcomes outcomes1);;
  emit (Render true).

(** The buttons of the sheet; a roll click comes with what the dice
    engine will answer this time. *)
Inductive Click : Type :=
| CompleteButton
| RollButton (evaluate : DiceEngine)
| AddOutcomeButton
| RemoveOutcomeButton (dataset_index : option string).

Definition onClick `{I18n} `{NumberToString} (c : Click) : Host unit :=
  match c with
  | CompleteButton => onCompleteClick
  | RollButton evaluate => onRollClick evaluate
  | AddOutcomeButton => onAddOutcomeClick
  | RemoveOutcomeButton dataset_index => onRemoveOutcomeClick dataset_index
  end.

(** A session: the clicks handled one after the other. *)
Fixpoint session `{I18n} `{NumberToString} (clicks : list Click) : Host unit :=
  match clicks with
  | [] => mret tt
  | c :: rest => onClick c;; session rest
  end.

(** ** Vocabulary of the statements *)

(** The range [o] holds the roll [r]. *)
Definition holds (r : Z) (o : OutcomeRange) : Prop :=
  (minRoll o ≤ r ≤ maxRoll o)%Z.

(** A warning or an error was shown to the user. *)
Definition reportsFailure (effs : list Effect) : Prop :=
  ∃ message, Notification warn message ∈ effs ∨ Notification error message ∈ effs.

(** Something of any level was shown to the user or logged as an error. *)
Definition reportsAnything (effs : list Effect) : Prop :=
  ∃ e, e ∈ effs ∧
    match e with
    | Notification _ _ | ConsoleError _ _ => True
    | _ => False
    end.

(** The item of the examples: the three default ranges, named. *)
Definition carousing : Item :=
  mkItem "Carousing" None
    (mkSystem "" "1 day" "0" false (Some "1d20") ""
       [mkOutcome 1 7 ""; mkOutcome 8 15 ""; mkOutcome 16 20 ""]).

(** An item whose three ranges are described as "A", "B" and "C". *)
Definition lettered : Item :=
  mkItem "Gambling" None
    (mkSystem "" "1 day" "0" false (Some "1d20") ""
       [mkOutcome 1 7 "A"; mkOutcome 8 15 "B"; mkOutcome 16 20 "C"]).

(** The same item with the roll expression blanked and an outcome
    already recorded. *)
Definition blankDie : Item :=
  mkItem "Carousing" None
    (mkSystem "" "1 day" "0" false (Some "") "A fine evening"
       [mkOutcome 1 7 ""; mkOutcome 8 15 ""; mkOutcome 16 20 ""]).

Definition isRollButton (c : Click) : bool :=
  match c with
  | RollButton _ => true
  | _ => false
  end.

(** Dice engines of the examples: one that always totals [n], one that
    always throws. *)
Definition loaded (n : Z) : DiceEngine := λ expression, Resolved (mkRoll expression n).
Definition broken : DiceEngine := λ _, Thrown "Unresolved StringTerm".

(** What the catch block of [rollDowntimeActivity] does with a message
    (lines 105-106), and what the try block does when nothing throws:
    the update of line 87, the chat message of lines 96-100, the
    notification of line 102. *)
Definition caught `{I18n} (err_message : string) : list Effect :=
  [ ConsoleError "Downtime Activities | Failed to roll downtime activity:"
      err_message;
    Notification error
      (format "DOWNTIME.RollError" [("error", VString err_message)]) ].

Definition rolled `{I18n} `{NumberToString} (this : Item) (roll : Roll)
  : list Effect :=
  let text := outcomeText (total roll) (outcomes (system this)) in
  [ DocumentUpdate (SystemCurrentOutcome text);
    ChatMessageCreate
      (chatContent this (total roll) (rollDie (system this)) text)
      (actor this) (Some roll);
    Notification info
      (format "DOWNTIME.RollCompleteNotification"
         [("name", VString (name this)); ("roll", VFloat (total roll))]) ].

(** How many of these three steps are done when a call of [stage]
    throws. *)
Definition stepsBefore (stage : Stage) : nat :=
  match stage with
  | Updating => 0
  | Posting => 1
  | Notifying => 2
  end.

(** A dice engine of the examples: the dice give [n], the update goes
    through, and the call that builds the chat message throws. *)
Definition speechless (n : Z) : DiceEngine :=
  λ expression, Interrupted (mkRoll expression n) Posting "No speaker".

(** Kinds of effects and of clicks, and how often a kind of effect
    occurs in a trace. *)
Definition isRender (e : Effect) : bool :=
  match e with Render true => true | _ => false end.
Definition isPreventDefault (e : Effect) : bool :=
  match e with PreventDefault => true | _ => false end.
Definition isUpdate (e : Effect) : bool :=
  match e with DocumentUpdate _ => true | _ => false end.
Definition isChat (e : Effect) : bool :=
  match e with ChatMessageCreate _ _ _ => true | _ => false end.
Definition isListButton (c : Click) : bool :=
  match c with
  | AddOutcomeButton | RemoveOutcomeButton _ => true
  | _ => false
  end.
Definition occurrences (kind : Effect → bool) (effs : list Effect) : nat :=
  length (List.filter kind effs).

(** What no button of the sheet writes: the name and owner of the item
    and its description, duration, cost and roll expression. *)
Definition details (this : Item)
  : string * option string * string * string * string * option string :=
  (name this, actor this, sys_description (system this), duration (system this),
   cost (system this), rollDie (system this)).

(** The range a click on the add button appends. *)
Definition defaultOutcome : OutcomeRange := mkOutcome 1 20 "".

(** Closes a goal from [Hin : e ∈ [e1; ...; en]] when [e] is built
    differently from every [ei]. *)
Ltac not_among Hin :=
  let Heq := fresh "Heq" in
  repeat (apply elem_of_cons in Hin as [Heq | Hin]; [discriminate Heq|]);
  by apply elem_of_nil in Hin.

(** ** Facts about the built-ins *)

Example parseInt_index : Js.parseInt (Some "2") = Js.Int 2.
Proof. reflexivity. Qed.

Example parseInt_prefix : Js.parseInt (Some "  -12px") = Js.Int (-12).
Proof. reflexivity. Qed.

Example parseInt_hex : Js.parseInt (Some "0x1f") = Js.Int 31.
Proof. reflexivity. Qed.

Example parseInt_no_digit :
  Js.parseInt (Some "first") = Js.NaN ∧ Js.parseInt (Some "") = Js.NaN
  ∧ Js.parseInt None = Js.NaN.
Proof. by repeat split. Qed.

(** White space of more than one byte is skipped too: U+00A0 before the
    digit, and U+FEFF, U+2028 and a space before the sign; U+200B is no
    white space. *)
Example parseInt_unicode_space :
  Js.parseInt (Some (String "194" (String "160" "1"))) = Js.Int 1
  ∧ Js.parseInt
      (Some (String "239" (String "187" (String "191"
         (String "226" (String "128" (String "168" " -42x")))))))
    = Js.Int (-42)
  ∧ Js.parseInt (Some (String "226" (String "128" (String "139" "5")))) = Js.NaN.
Proof. by repeat split. Qed.

(** A total between two ranges matches neither, and an infinite total
    matches none. *)
Example outcomeText_fraction :
  outcomeText (H := untranslated) (Js.Finite (15 # 2)) (outcomes (system lettered))
  = "DOWNTIME.NoOutcomeFound"
  ∧ outcomeText (H := untranslated) (Js.Finite (29 # 2)) (outcomes (system lettered))
    = "B"
  ∧ outcomeText (H := untranslated) (Js.Infinity false) (outcomes (system lettered))
    = "DOWNTIME.NoOutcomeFound".
Proof. by repeat split. Qed.

Example chatContent_sample :
  chatContent (H := untranslated) carousing 9 (Some "1d20") "Won at dice"
  = newline +:+ "        <h2>Carousing - DOWNTIME.ActivityRoll</h2>"
    +:+ newline
    +:+ "        <p>DOWNTIME.Rolled: <strong>9</strong> (1d20)</p>"
    +:+ newline +:+ "        <div>DOWNTIME.Outcome: Won at dice</div>"
    +:+ newline +:+ "      ".
Proof. vm_compute. reflexivity. Qed.

Lemma holds_test (r : Z) (o : OutcomeRange) :
  Js.ge r (minRoll o) && Js.le r (maxRoll o) = true ↔ holds r o.
Proof.
  unfold holds, Js.ge, Js.le, Js.ofZ.
  rewrite andb_true_iff, !Qle_bool_iff, <- !Zle_Qle. tauto.
Qed.

Lemma splice_one_valid {A} (l : list A) (i : nat) :
  i < length l → Js.splice l (Js.Int (Z.of_nat i)) 1 = delete i l.
Proof.
  intros Hi. unfold Js.splice. cbn [Js.toIntegerOrInfinity].
  destruct (Z.ltb_spec (Z.of_nat i) 0) as [Hneg|_]; [lia|].
  rewrite delete_take_drop.
  replace (Z.min (Z.of_nat i) (Z.of_nat (length l))) with (Z.of_nat i) by lia.
  replace (Z.min (Z.max 1 0) (Z.of_nat (length l) - Z.of_nat i)) with 1%Z by lia.
  replace (Z.to_nat (Z.of_nat i + 1)) with (S i) by lia.
  by rewrite Nat2Z.id.
Qed.

Lemma splice_one_beyond {A} (l : list A) (i : Z) :
  (Z.of_nat (length l) ≤ i)%Z → Js.splice l (Js.Int i) 1 = l.
Proof.
  intros Hi. unfold Js.splice. cbn [Js.toIntegerOrInfinity].
  destruct (Z.ltb_spec i 0) as [Hneg|_]; [lia|].
  replace (Z.min i (Z.of_nat (length l))) with (Z.of_nat (length l)) by lia.
  replace (Z.of_nat (length l) + _)%Z with (Z.of_nat (length l)) by lia.
  rewrite Nat2Z.id, drop_all, app_nil_r. by apply take_ge.
Qed.

(** A negative index within the array counts from its end. *)
Lemma splice_one_from_end {A} (l : list A) (k : nat) :
  0 < k ≤ length l →
  Js.splice l (Js.Int (- Z.of_nat k)) 1 = delete (length l - k) l.
Proof.
  intros Hk. unfold Js.splice. cbn [Js.toIntegerOrInfinity].
  destruct (Z.ltb_spec (- Z.of_nat k) 0) as [_|Hpos]; [|lia].
  rewrite delete_take_drop.
  replace (Z.max (Z.of_nat (length l) + - Z.of_nat k) 0)
    with (Z.of_nat (length l - k)) by lia.
  replace (Z.min (Z.max 1 0) (Z.of_nat (length l) - Z.of_nat (length l - k)))
    with 1%Z by lia.
  replace (Z.to_nat (Z.of_nat (length l - k) + 1)) with (S (length l - k)) by lia.
  by rewrite Nat2Z.id.
Qed.

(** [NaN] is taken as position 0. *)
Lemma splice_one_NaN {A} (l : list A) : Js.splice l Js.NaN 1 = drop 1 l.
Proof.
  unfold Js.splice. cbn [Js.toIntegerOrInfinity].
  destruct l as [|x l]; [reflexivity|].
  cbn [length]. rewrite Z.min_l by lia. cbn [Z.ltb Z.compare Z.to_nat take app].
  replace (Z.min (Z.max 1 0) (Z.of_nat (S (length l)) - 0)) with 1%Z by lia.
  reflexivity.
Qed.

(** ** Facts about the scan *)

Lemma matchedOutcome_first (r : Z) (before : list OutcomeRange) o after :
  Forall (λ p, ¬ holds r p) before → holds r o →
  matchedOutcome r (before ++ o :: after) = Some o.
Proof.
  intros Hbefore Ho. induction Hbefore as [|p before Hp _ IH]; cbn [matchedOutcome app].
  - apply holds_test in Ho. by rewrite Ho.
  - destruct (Js.ge r (minRoll p) && Js.le r (maxRoll p)) eqn:E; [|exact IH].
    apply holds_test in E. contradiction.
Qed.

Lemma matchedOutcome_none (r : Z) (O : list OutcomeRange) :
  Forall (λ p, ¬ holds r p) O → matchedOutcome r O = None.
Proof.
  induction 1 as [|p O Hp _ IH]; cbn [matchedOutcome]; [reflexivity|].
  destruct (Js.ge r (minRoll p) && Js.le r (maxRoll p)) eqn:E; [|exact IH].
  apply holds_test in E. contradiction.
Qed.

(** Conversely, what the scan returns is in the list, holds the roll,
    and nothing before it does. *)
Lemma matchedOutcome_Some (r : Z) (O : list OutcomeRange) o :
  matchedOutcome r O = Some o →
  ∃ before after, O = before ++ o :: after
    ∧ Forall (λ p, ¬ holds r p) before ∧ holds r o.
Proof.
  induction O as [|p O IH]; cbn [matchedOutcome]; [discriminate|].
  destruct (Js.ge r (minRoll p) && Js.le r (maxRoll p)) eqn:E.
  - intros [= ->]. exists [], O. apply holds_test in E.
    split; [reflexivity|]. split; [constructor|exact E].
  - intros Hm. destruct (IH Hm) as (before & after & -> & Hb & Ho).
    exists (p :: before), after.
    split; [reflexivity|]. split; [|exact Ho].
    constructor; [|exact Hb]. rewrite <- holds_test, E. discriminate.
Qed.

(** ** Facts about the host plumbing *)

Lemma itemAfter_bind {A B} (m : Host A) (f : A → Host B) (this : Item) :
  itemAfter (m ≫= f) this = itemAfter (f (m this).1.1) (itemAfter m this).
Proof.
  unfold itemAfter, mbind, host_bind.
  destruct (m this) as [[a this1] effs1]. cbn.
  by destruct (f a this1) as [[b this2] effs2].
Qed.

Lemma effectsOf_bind {A B} (m : Host A) (f : A → Host B) (this : Item) :
  effectsOf (m ≫= f) this
  = effectsOf m this ++ effectsOf (f (m this).1.1) (itemAfter m this).
Proof.
  unfold effectsOf, itemAfter, mbind, host_bind.
  destruct (m this) as [[a this1] effs1]. cbn.
  by destruct (f a this1) as [[b this2] effs2].
Qed.

Lemma applyChange_same_outcomes (this : Item) :
  applyChange (SystemOutcomes (outcomes (system this))) this = this.
Proof. by destruct this as [n a []]. Qed.

(** ** [rollDowntimeActivity] and [performActivity], path by path *)

Section Activity.
Context `{I18n} `{NumberToString}.

(** The ways through [rollDowntimeActivity]: no expression; the try
    block runs to its end; it throws before anything is written; it
    throws after the update. *)
Lemma rollDowntimeActivity_paths (evaluate : DiceEngine) (this : Item) :
  rollDowntimeActivity evaluate this =
  let rollExpression := rollDie (system this) in
  if Js.truthy rollExpression then
    match evaluate rollExpression with
    | Resolved roll =>
        let text := outcomeText (total roll) (outcomes (system this)) in
        (tt, applyChange (SystemCurrentOutcome text) this, rolled this roll)
    | Thrown err_message => (tt, this, caught err_message)
    | Interrupted roll stage err_message =>
        let text := outcomeText (total roll) (outcomes (system this)) in
        (tt,
         match stage with
         | Updating => this
         | _ => applyChange (SystemCurrentOutcome text) this
         end,
         take (stepsBefore stage) (rolled this roll) ++ caught err_message)
    end
  else (tt, this, [Notification warn (localize "DOWNTIME.NoRollDieWarning")]).
Proof.
  unfold rollDowntimeActivity, mbind, host_bind, getThis. cbn zeta.
  destruct (Js.truthy (rollDie (system this))); cbn [negb]; [|reflexivity].
  unfold tryCatch, mbind, try_bind, evaluated, reaching, returning, throw, mret,
    try_ret, update, emit.
  by destruct (evaluate (rollDie (system this))) as [roll|err_message|roll [] err_message].
Qed.

Lemma performActivity_paths (this : Item) :
  performActivity this =
  let this' := applyChange (SystemIsComplete true) this in
  (tt, this',
    [ DocumentUpdate (SystemIsComplete true);
      ChatMessageCreate
        (format "DOWNTIME.ActivityCompletedChat"
           [("name", VString (name this'));
            ("outcome", VString (currentOutcome (system this')))])
        (actor this') None;
      Notification info
        (format "DOWNTIME.ActivityCompletedNotification"
           [("name", VString (name this'))]) ]).
Proof. reflexivity. Qed.

(** No handler lowers the completion flag. *)
Lemma applyChange_keeps_complete (c : Change) (this : Item) :
  (∀ flag, c = SystemIsComplete flag → flag = true) →
  isComplete (system this) = true →
  isComplete (system (applyChange c this)) = true.
Proof. destruct c; cbn; intros Hc Hthis; [done| |done]. by apply Hc. Qed.

Lemma rollDowntimeActivity_keeps_complete (evaluate : DiceEngine) (this : Item) :
  isComplete (system this) = true →
  isComplete (system (itemAfter (rollDowntimeActivity evaluate) this)) = true.
Proof.
  intros Hthis. unfold itemAfter. rewrite rollDowntimeActivity_paths. cbn zeta.
  destruct (Js.truthy _); [|done].
  by destruct (evaluate _) as [roll|err_message|roll [] err_message].
Qed.

Lemma onClick_keeps_complete (c : Click) (this : Item) :
  isComplete (system this) = true →
  isComplete (system (itemAfter (onClick c) this)) = true.
Proof.
  intros Hthis. destruct c as [|evaluate| |dataset_index]; cbn [onClick].
  - done.
  - unfold onRollClick. rewrite !itemAfter_bind.
    by apply rollDowntimeActivity_keeps_complete.
  - done.
  - done.
Qed.

(** Only a roll writes [currentOutcome]. *)
Lemma onClick_keeps_currentOutcome (c : Click) (this : Item) :
  isRollButton c = false →
  currentOutcome (system (itemAfter (onClick c) this)) = currentOutcome (system this).
Proof. by destruct c. Qed.

End Activity.

(** ** The properties of the specification *)

Section Properties.
Context `{I18n} `{NumberToString}.

(** C1. For every integer roll [r] and every ordered list of ranges [O]
    (the empty one included), the resolution of lines 73-84 returns the
    description of the first range of [O] with
    [minRoll ≤ r ≤ maxRoll], and the localised "no outcome found" text
    when no range of [O] holds [r].  On the ranges 1-7 "A", 8-15 "B",
    16-20 "C" it gives "A" for 1 and 7, "B" for 8, "C" for 20, and the
    "no outcome found" text for 21 and 0. *)
Theorem outcomeText_first_match (r : Z) (O : list OutcomeRange) :
  (∀ before o after,
      O = before ++ o :: after →
      Forall (λ p, ¬ holds r p) before → holds r o →
      outcomeText r O = description o)
  ∧ (Forall (λ p, ¬ holds r p) O →
      outcomeText r O = localize "DOWNTIME.NoOutcomeFound")
  ∧ outcomeText r [] = localize "DOWNTIME.NoOutcomeFound"
  ∧ (let O3 := [mkOutcome 1 7 "A"; mkOutcome 8 15 "B"; mkOutcome 16 20 "C"] in
     outcomeText 1 O3 = "A" ∧ outcomeText 7 O3 = "A" ∧ outcomeText 8 O3 = "B"
     ∧ outcomeText 20 O3 = "C"
     ∧ outcomeText 21 O3 = localize "DOWNTIME.NoOutcomeFound"
     ∧ outcomeText 0 O3 = localize "DOWNTIME.NoOutcomeFound").
Proof.
  split; [|split; [|split]].
  - intros before o after -> Hbefore Ho. unfold outcomeText.
    by rewrite matchedOutcome_first.
  - intros Hnone. unfold outcomeText. by rewrite matchedOutcome_none.
  - reflexivity.
  - cbn zeta. repeat split; reflexivity.
Qed.

(** C9. A newly created item starts with exactly the three default
    ranges 1-7, 8-15 and 16-20, each with an empty description, with
    [isComplete] false and [currentOutcome] empty; and [currentOutcome]
    stays empty as long as no roll is made. *)
Theorem createItem_defaults (label : string) (owner : option string) :
  ∃ item, createItem label owner = Some item
    ∧ outcomes (system item)
      = [mkOutcome 1 7 ""; mkOutcome 8 15 ""; mkOutcome 16 20 ""]
    ∧ isComplete (system item) = false
    ∧ currentOutcome (system item) = ""
    ∧ (∀ clicks, Forall (λ c, isRollButton c = false) clicks →
         currentOutcome (system (itemAfter (session clicks) item)) = "").
Proof.
  eexists. split; [reflexivity|]. do 3 (split; [reflexivity|]).
  intros clicks Hclicks.
  generalize (eq_refl : currentOutcome
                (system (mkItem label owner
                   (mkSystem "" "1 day" "0" false (Some "1d20") ""
                      [mkOutcome 1 7 ""; mkOutcome 8 15 ""; mkOutcome 16 20 ""])))
              = "").
  generalize (mkItem label owner
                (mkSystem "" "1 day" "0" false (Some "1d20") ""
                   [mkOutcome 1 7 ""; mkOutcome 8 15 ""; mkOutcome 16 20 ""])).
  induction Hclicks as [|c clicks Hc _ IH]; intros this Hthis.
  - exact Hthis.
  - cbn [session]. rewrite itemAfter_bind. apply IH.
    by rewrite onClick_keeps_currentOutcome.
Qed.

(** C3. When the roll expression of the item is empty or unset,
    [rollDowntimeActivity] shows the user the "no roll die" warning, does
    nothing else, and leaves the whole item as it was. *)
Theorem rollDowntimeActivity_no_expression (evaluate : DiceEngine) (this : Item) :
  rollDie (system this) = None ∨ rollDie (system this) = Some "" →
  rollDowntimeActivity evaluate this
  = (tt, this, [Notification warn (localize "DOWNTIME.NoRollDieWarning")]).
Proof.
  intros Hempty. rewrite rollDowntimeActivity_paths. cbn zeta.
  by destruct Hempty as [-> | ->].
Qed.

(** C4, as the code has it.  Whenever [rollDowntimeActivity] ends by
    showing a warning or an error and no update of its own has gone
    through, the item is left entirely as it was; that is the case
    exactly when the roll expression is empty or unset, the roll
    evaluation throws, or the update is rejected.  When the error comes
    after the update has gone through, the item differs from what it
    was by [currentOutcome] alone, which holds the resolved text. *)
Theorem rollDowntimeActivity_failure_before_update (evaluate : DiceEngine) (this : Item) :
  let effs := effectsOf (rollDowntimeActivity evaluate) this in
  let this' := itemAfter (rollDowntimeActivity evaluate) this in
  reportsFailure effs →
  (occurrences isUpdate effs = 0%nat → this' = this)
  ∧ (occurrences isUpdate effs = 0%nat
     ↔ Js.truthy (rollDie (system this)) = false
       ∨ (∃ err_message, evaluate (rollDie (system this)) = Thrown err_message)
       ∨ (∃ roll err_message,
            evaluate (rollDie (system this)) = Interrupted roll Updating err_message))
  ∧ (occurrences isUpdate effs ≠ 0%nat →
     ∃ roll stage err_message,
       evaluate (rollDie (system this)) = Interrupted roll stage err_message
       ∧ stage ≠ Updating
       ∧ this' = applyChange
                   (SystemCurrentOutcome
                      (outcomeText (total roll) (outcomes (system this))))
                   this).
Proof.
  cbn zeta. unfold reportsFailure, effectsOf, itemAfter.
  rewrite rollDowntimeActivity_paths. cbn zeta.
  destruct (Js.truthy (rollDie (system this))).
  - destruct (evaluate (rollDie (system this)))
      as [roll|err_message|roll [] err_message]; cbn.
    + intros [message [Hin | Hin]]; not_among Hin.
    + intros _. split; [done|]. split; [|done].
      split; [|done]. intros _. right. left. by eexists.
    + intros _. split; [done|]. split; [|done].
      split; [|done]. intros _. right. right. by eexists _, _.
    + intros _. split; [done|]. split; [|intros _; by eexists _, _, _].
      split; [done|].
      intros [Hfalse | [[m Hthrown] | (r & m & Hrejected)]]; discriminate.
    + intros _. split; [done|]. split; [|intros _; by eexists _, _, _].
      split; [done|].
      intros [Hfalse | [[m Hthrown] | (r & m & Hrejected)]]; discriminate.
  - intros _. split; [done|]. split; [|done].
    split; [|done]. intros _. by left.
Qed.

(** C5. [performActivity] sets [isComplete] to true on every item,
    checks nothing and reports no failure; done twice, it leaves the
    same item as done once. *)
Theorem performActivity_idempotent (this : Item) :
  isComplete (system (itemAfter performActivity this)) = true
  ∧ ¬ reportsFailure (effectsOf performActivity this)
  ∧ itemAfter performActivity (itemAfter performActivity this)
    = itemAfter performActivity this.
Proof.
  split; [reflexivity|]. split; [|reflexivity].
  intros [message [Hin | Hin]]; unfold effectsOf in Hin;
    rewrite performActivity_paths in Hin; cbn in Hin; not_among Hin.
Qed.

(** C10. [performActivity] changes the [isComplete] field only: the
    description, duration, cost, roll expression, current outcome and
    outcome ranges of the item (and its name and owner) are after the
    call what they were before, and the one change it submits is
    [system.isComplete := true]. *)
Theorem performActivity_frame (this : Item) :
  let this' := itemAfter performActivity this in
  sys_description (system this') = sys_description (system this)
  ∧ duration (system this') = duration (system this)
  ∧ cost (system this') = cost (system this)
  ∧ rollDie (system this') = rollDie (system this)
  ∧ currentOutcome (system this') = currentOutcome (system this)
  ∧ outcomes (system this') = outcomes (system this)
  ∧ name this' = name this
  ∧ actor this' = actor this
  ∧ (∀ c, DocumentUpdate c ∈ effectsOf performActivity this →
          c = SystemIsComplete true).
Proof.
  cbn zeta. repeat split.
  intros c Hin. unfold effectsOf in Hin. rewrite performActivity_paths in Hin.
  cbn in Hin.
  apply elem_of_cons in Hin as [[= ->] | Hin]; [reflexivity|].
  not_among Hin.
Qed.

(** C8. [isComplete] is a one-way flag: once it is true, no sequence of
    clicks on the sheet's buttons (roll, mark complete, add an outcome,
    remove an outcome), whatever the dice answer and whatever index is
    removed, brings it back to false. *)
Theorem isComplete_one_way (clicks : list Click) (this : Item) :
  isComplete (system this) = true →
  isComplete (system (itemAfter (session clicks) this)) = true.
Proof.
  revert this. induction clicks as [|c clicks IH]; intros this Hthis.
  - exact Hthis.
  - cbn [session]. rewrite itemAfter_bind.
    apply IH. by apply onClick_keeps_complete.
Qed.

End Properties.

(** ** The outcome list under the add and remove buttons *)

Lemma onAddOutcomeClick_paths (this : Item) :
  onAddOutcomeClick this =
  let outcomes1 := outcomes (system this) ++ [mkOutcome 1 20 ""] in
  (tt, applyChange (SystemOutcomes outcomes1) this,
    [PreventDefault; DocumentUpdate (SystemOutcomes outcomes1); Render true]).
Proof. reflexivity. Qed.

Lemma onRemoveOutcomeClick_paths (dataset_index : option string) (this : Item) :
  onRemoveOutcomeClick dataset_index this =
  let outcomes1 := Js.splice (outcomes (system this)) (Js.parseInt dataset_index) 1 in
  (tt, applyChange (SystemOutcomes outcomes1) this,
    [PreventDefault; DocumentUpdate (SystemOutcomes outcomes1); Render true]).
Proof. reflexivity. Qed.

(** C7. The add button makes [outcomes] exactly one longer: the default
    range (1, 20, no text) is put at the end, and every range that was
    there stays at its position, unchanged. *)
Theorem onAddOutcomeClick_appends (this : Item) :
  let os := outcomes (system this) in
  let os' := outcomes (system (itemAfter onAddOutcomeClick this)) in
  os' = os ++ [mkOutcome 1 20 ""]
  ∧ length os' = S (length os)
  ∧ os' !! length os = Some (mkOutcome 1 20 "")
  ∧ (∀ i o, os !! i = Some o → os' !! i = Some o).
Proof.
  cbn zeta. unfold itemAfter. rewrite onAddOutcomeClick_paths. cbn.
  split; [reflexivity|]. split; [|split].
  - rewrite length_app. cbn. lia.
  - by rewrite list_lookup_middle.
  - intros i o Hi. rewrite lookup_app_l; [exact Hi|]. by eapply lookup_lt_Some.
Qed.

(** C6. With a valid index (the button's [data-index] reads as [i], and
    [i] is a position of [outcomes]), the remove button removes exactly
    the range at [i]: the list is one shorter, the ranges before [i]
    keep their positions and those after it move up by one, in order. *)
Theorem onRemoveOutcomeClick_valid_index
  (this : Item) (dataset_index : option string) (i : nat) :
  Js.parseInt dataset_index = Js.Int (Z.of_nat i) →
  (i < length (outcomes (system this)))%nat →
  let os := outcomes (system this) in
  let os' := outcomes (system (itemAfter (onRemoveOutcomeClick dataset_index) this)) in
  os' = take i os ++ drop (S i) os
  ∧ S (length os') = length os
  ∧ (∀ j : nat, (j < i)%nat → os' !! j = os !! j)
  ∧ (∀ j : nat, (i ≤ j)%nat → os' !! j = os !! S j).
Proof.
  intros Hparse Hi. cbn zeta. unfold itemAfter.
  rewrite onRemoveOutcomeClick_paths. cbn. rewrite Hparse.
  rewrite splice_one_valid by exact Hi.
  split; [apply delete_take_drop|]. split; [|split].
  - rewrite length_delete by (by apply lookup_lt_is_Some). lia.
  - intros j Hj. by apply list_lookup_delete_lt.
  - intros j Hj. by apply list_lookup_delete_ge.
Qed.

(** C2, as the code has it.  When the button's [data-index] reads as an
    integer at or beyond the length of [outcomes], the remove button
    reports nothing: it submits the unchanged list, re-renders, and the
    item is exactly as it was. *)
Theorem onRemoveOutcomeClick_beyond_length
  (this : Item) (dataset_index : option string) (i : Z) :
  Js.parseInt dataset_index = Js.Int i →
  (Z.of_nat (length (outcomes (system this))) ≤ i)%Z →
  onRemoveOutcomeClick dataset_index this
  = (tt, this,
      [PreventDefault; DocumentUpdate (SystemOutcomes (outcomes (system this)));
       Render true])
  ∧ ¬ reportsAnything (effectsOf (onRemoveOutcomeClick dataset_index) this).
Proof.
  intros Hparse Hi.
  assert (Hrun : onRemoveOutcomeClick dataset_index this
                 = (tt, this,
                     [PreventDefault;
                      DocumentUpdate (SystemOutcomes (outcomes (system this)));
                      Render true])).
  { rewrite onRemoveOutcomeClick_paths. cbn zeta. rewrite Hparse.
    rewrite splice_one_beyond by exact Hi.
    by rewrite applyChange_same_outcomes. }
  split; [exact Hrun|].
  unfold effectsOf. rewrite Hrun. cbn.
  intros (e & Hin & He).
  repeat (apply elem_of_cons in Hin as [-> | Hin]; [exact He|]).
  by apply elem_of_nil in Hin.
Qed.

(** C2, as the specification has it, fails on the item with the three
    default ranges.  Index 7 is beyond the list: the list is left alone
    but nothing is reported, no error either.  An index that is no
    number removes the first range, and index -1 removes the last. *)
Lemma onRemoveOutcomeClick_invalid_index_unreported :
  onRemoveOutcomeClick (Some "7") carousing
  = (tt, carousing,
      [PreventDefault;
       DocumentUpdate
         (SystemOutcomes [mkOutcome 1 7 ""; mkOutcome 8 15 ""; mkOutcome 16 20 ""]);
       Render true])
  ∧ ¬ reportsAnything (effectsOf (onRemoveOutcomeClick (Some "7")) carousing)
  ∧ outcomes (system (itemAfter (onRemoveOutcomeClick (Some "first")) carousing))
    = [mkOutcome 8 15 ""; mkOutcome 16 20 ""]
  ∧ outcomes (system (itemAfter (onRemoveOutcomeClick None) carousing))
    = [mkOutcome 8 15 ""; mkOutcome 16 20 ""]
  ∧ outcomes (system (itemAfter (onRemoveOutcomeClick (Some "-1")) carousing))
    = [mkOutcome 1 7 ""; mkOutcome 8 15 ""].
Proof.
  split; [reflexivity|]. split; [|by repeat split].
  intros (e & Hin & He). cbn in Hin.
  repeat (apply elem_of_cons in Hin as [-> | Hin]; [exact He|]).
  by apply elem_of_nil in Hin.
Qed.

(** C4, as the specification has it, fails on the item whose ranges
    read "A", "B", "C" when the dice give 9, the update goes through
    and the call that builds the chat message throws: the error is
    reported, and [currentOutcome] has gone from empty to "B". *)
Lemma rollDowntimeActivity_late_failure_writes_outcome :
  reportsFailure
    (effectsOf (rollDowntimeActivity (H := untranslated) (speechless 9)) lettered)
  ∧ currentOutcome (system lettered) = ""
  ∧ currentOutcome
      (system (itemAfter (rollDowntimeActivity (H := untranslated) (speechless 9))
                 lettered)) = "B"
  ∧ itemAfter (rollDowntimeActivity (H := untranslated) (speechless 9)) lettered
    ≠ lettered.
Proof.
  split; [|split; [reflexivity|split; [reflexivity|discriminate]]].
  exists "DOWNTIME.RollError". right. cbn.
  do 2 (apply elem_of_cons; right). apply list_elem_of_here.
Qed.

(** ** The statements with premises, on concrete inputs *)

Lemma outcomeText_first_match_witness :
  outcomeText (H := untranslated) 8
    [mkOutcome 1 7 "A"; mkOutcome 8 15 "B"; mkOutcome 16 20 "C"] = "B"
  ∧ outcomeText (H := untranslated) 21
      [mkOutcome 1 7 "A"; mkOutcome 8 15 "B"; mkOutcome 16 20 "C"]
    = "DOWNTIME.NoOutcomeFound".
Proof.
  split.
  - apply (proj1 (outcomeText_first_match (H := untranslated) 8
                    [mkOutcome 1 7 "A"; mkOutcome 8 15 "B"; mkOutcome 16 20 "C"])
             [mkOutcome 1 7 "A"] (mkOutcome 8 15 "B") [mkOutcome 16 20 "C"]).
    + reflexivity.
    + constructor; [|constructor]. unfold holds; cbn. lia.
    + unfold holds; cbn. lia.
  - apply (proj1 (proj2 (outcomeText_first_match (H := untranslated) 21
                    [mkOutcome 1 7 "A"; mkOutcome 8 15 "B"; mkOutcome 16 20 "C"]))).
    repeat constructor; unfold holds; cbn; lia.
Defined.

Lemma rollDowntimeActivity_no_expression_witness :
  rollDowntimeActivity (H := untranslated) (loaded 12) blankDie
  = (tt, blankDie, [Notification warn "DOWNTIME.NoRollDieWarning"]).
Proof.
  apply (rollDowntimeActivity_no_expression (H := untranslated)).
  right. reflexivity.
Defined.

Lemma createItem_defaults_witness :
  ∃ item, createItem "Carousing" None = Some item
    ∧ currentOutcome
        (system
           (itemAfter
              (session (H := untranslated)
                 [AddOutcomeButton; CompleteButton; RemoveOutcomeButton (Some "0")])
              item)) = "".
Proof.
  destruct (createItem_defaults (H := untranslated) "Carousing" None)
    as (item & Hcreated & _ & _ & _ & Hquiet).
  exists item. split; [exact Hcreated|].
  apply Hquiet. repeat constructor.
Defined.

Lemma rollDowntimeActivity_failure_before_update_witness :
  reportsFailure (effectsOf (rollDowntimeActivity (H := untranslated) broken) lettered)
  ∧ itemAfter (rollDowntimeActivity (H := untranslated) broken) lettered = lettered.
Proof.
  assert (Hfail : reportsFailure
            (effectsOf (rollDowntimeActivity (H := untranslated) broken) lettered)).
  { exists "DOWNTIME.RollError". right. cbn.
    apply elem_of_cons. right. apply list_elem_of_here. }
  split; [exact Hfail|].
  exact (proj1 (rollDowntimeActivity_failure_before_update
                  (H := untranslated) broken lettered Hfail) eq_refl).
Defined.

Lemma isComplete_one_way_witness :
  isComplete
    (system
       (itemAfter
          (session (H := untranslated)
             [RollButton (loaded 9); RemoveOutcomeButton (Some "0");
              AddOutcomeButton; RollButton broken; CompleteButton])
          (applyChange (SystemIsComplete true) carousing))) = true.
Proof.
  apply (isComplete_one_way (H := untranslated)). reflexivity.
Defined.

Lemma onRemoveOutcomeClick_valid_index_witness :
  outcomes (system (itemAfter (onRemoveOutcomeClick (Some "1")) carousing))
  = [mkOutcome 1 7 ""; mkOutcome 16 20 ""].
Proof.
  apply (proj1 (onRemoveOutcomeClick_valid_index carousing (Some "1") 1
                  eq_refl (le_n_S _ _ (le_n_S _ _ (Nat.le_0_l _))))).
Defined.

Lemma onRemoveOutcomeClick_beyond_length_witness :
  onRemoveOutcomeClick (Some "3") carousing
  = (tt, carousing,
      [PreventDefault;
       DocumentUpdate (SystemOutcomes (outcomes (system carousing)));
       Render true]).
Proof.
  apply (proj1 (onRemoveOutcomeClick_beyond_length carousing (Some "3") 3
                  eq_refl ltac:(cbn; lia))).
Defined.

(** ** Further properties of the code *)

(** *** Reading an index back from its decimal digits *)

Lemma digitValue_pretty_N_char (d : N) :
  (d < 10)%N → Js.digitValue (pretty_N_char d) = Some (Z.of_N d).
Proof.
  intros Hd.
  assert (d = 0 ∨ d = 1 ∨ d = 2 ∨ d = 3 ∨ d = 4 ∨ d = 5 ∨ d = 6
          ∨ d = 7 ∨ d = 8 ∨ d = 9)%N as Hor by lia.
  repeat (destruct Hor as [-> | Hor]; [reflexivity|]). by rewrite Hor.
Qed.

(** The digits of a positive [x], put before [s], read as [x] followed
    by whatever [s] goes on with. *)
Lemma parseDigits_pretty_N_go (x : N) (s : string) :
  (0 < x)%N →
  Js.parseDigits 10 (pretty_N_go x s) None
  = Js.parseDigits 10 s (Some (Z.of_N x)).
Proof.
  revert s. induction (N.lt_wf_0 x) as [x _ IH]. intros s Hx.
  rewrite pretty_N_go_step by exact Hx.
  assert (Hd : (x `mod` 10 < 10)%N) by (apply N.mod_lt; lia).
  assert (Hx10 : x = (10 * (x `div` 10) + x `mod` 10)%N) by (apply N.div_mod; lia).
  destruct (decide (x `div` 10 = 0)%N) as [Hsmall | Hbig].
  - rewrite Hsmall, pretty_N_go_0. cbn [Js.parseDigits].
    rewrite digitValue_pretty_N_char by exact Hd.
    destruct (Z.ltb_spec (Z.of_N (x `mod` 10)) 10) as [_|Hge]; [|lia].
    cbn [default]. f_equal. f_equal. lia.
  - rewrite IH; [| apply N.div_lt; lia | lia].
    cbn [Js.parseDigits]. rewrite digitValue_pretty_N_char by exact Hd.
    destruct (Z.ltb_spec (Z.of_N (x `mod` 10)) 10) as [_|Hge]; [|lia].
    cbn [from_option]. unfold id. f_equal. f_equal. lia.
Qed.

(** The digits of a positive number start with one of 1 to 9. *)
Lemma pretty_N_go_head (x : N) (s : string) :
  (0 < x)%N →
  ∃ c rest, pretty_N_go x s = String c rest
    ∧ (c = "1" ∨ c = "2" ∨ c = "3" ∨ c = "4" ∨ c = "5" ∨ c = "6"
       ∨ c = "7" ∨ c = "8" ∨ c = "9")%char.
Proof.
  revert s. induction (N.lt_wf_0 x) as [x _ IH]. intros s Hx.
  rewrite pretty_N_go_step by exact Hx.
  destruct (decide (x `div` 10 = 0)%N) as [Hsmall | Hbig].
  - rewrite Hsmall, pretty_N_go_0. eexists _, _. split; [reflexivity|].
    assert (Hx10 : x = (10 * (x `div` 10) + x `mod` 10)%N) by (apply N.div_mod; lia).
    assert (x `mod` 10 = 1 ∨ x `mod` 10 = 2 ∨ x `mod` 10 = 3 ∨ x `mod` 10 = 4
            ∨ x `mod` 10 = 5 ∨ x `mod` 10 = 6 ∨ x `mod` 10 = 7
            ∨ x `mod` 10 = 8 ∨ x `mod` 10 = 9)%N as Hor.
    { assert (x `mod` 10 < 10)%N by (apply N.mod_lt; lia). lia. }
    repeat (destruct Hor as [-> | Hor]; [cbn; tauto|]).
    rewrite Hor. cbn. tauto.
  - apply IH; [apply N.div_lt; lia | by apply N.neq_0_lt_0].
Qed.

(** Nothing is trimmed off a string that starts with a minus sign or
    with a digit from 1 to 9. *)
Lemma trimStart_plain (c : ascii) (rest : string) :
  (c = "-" ∨ c = "1" ∨ c = "2" ∨ c = "3" ∨ c = "4" ∨ c = "5" ∨ c = "6"
   ∨ c = "7" ∨ c = "8" ∨ c = "9")%char →
  Js.trimStart (String c rest) = String c rest.
Proof.
  intros Hc. repeat (destruct Hc as [-> | Hc]; [reflexivity|]). by subst c.
Qed.

(** [parseInt] after a sign and digits that start with 1 to 9. *)
Lemma parseInt_digits (x : N) :
  (0 < x)%N →
  Js.parseInt (Some (pretty_N_go x "")) = Js.Int (Z.of_N x)
  ∧ Js.parseInt (Some (String "-" (pretty_N_go x ""))) = Js.Int (- Z.of_N x).
Proof.
  intros Hpos.
  pose proof (parseDigits_pretty_N_go x "" Hpos) as Hdigits.
  destruct (pretty_N_go_head x "" Hpos) as (c & rest & Hhead & Hc).
  rewrite Hhead in *. unfold Js.parseInt.
  rewrite !trimStart_plain by tauto.
  repeat (destruct Hc as [-> | Hc];
          [cbv beta iota zeta; rewrite Hdigits; cbn [Js.parseDigits];
           split; f_equal; lia|]).
  subst c. cbv beta iota zeta. rewrite Hdigits. cbn [Js.parseDigits].
  split; f_equal; lia.
Qed.

Lemma parseInt_pretty_Z (z : Z) : Js.parseInt (Some (pretty z)) = Js.Int z.
Proof.
  destruct z as [|p|p]; [reflexivity| |].
  - change (pretty (Z.pos p)) with (pretty (N.pos p)).
    unfold pretty, pretty_N.
    destruct (decide (N.pos p = 0%N)) as [Hz | _]; [discriminate Hz|].
    apply parseInt_digits. lia.
  - change (pretty (Z.neg p)) with (String "-" (pretty (N.pos p))).
    unfold pretty, pretty_N.
    destruct (decide (N.pos p = 0%N)) as [Hz | _]; [discriminate Hz|].
    apply (parseInt_digits (N.pos p)). lia.
Qed.

Lemma parseInt_pretty_nat (n : nat) :
  Js.parseInt (Some (pretty n)) = Js.Int (Z.of_nat n).
Proof.
  change (pretty n) with (pretty (N.of_nat n)).
  unfold pretty, pretty_N.
  destruct (decide (N.of_nat n = 0%N)) as [Hz | Hnz].
  - replace n with 0%nat by lia. reflexivity.
  - rewrite (proj1 (parseInt_digits (N.of_nat n) ltac:(lia))). f_equal. lia.
Qed.

(** *** The scan of lines 73-79, in full *)

Lemma matchedOutcome_app_Some (r : Z) (O extra : list OutcomeRange) o :
  matchedOutcome r O = Some o → matchedOutcome r (O ++ extra) = Some o.
Proof.
  intros (before & after & -> & Hbefore & Ho)%matchedOutcome_Some.
  rewrite <- app_assoc. cbn [app]. by apply matchedOutcome_first.
Qed.

Lemma matchedOutcome_app_None (r : Z) (O extra : list OutcomeRange) :
  matchedOutcome r O = None →
  matchedOutcome r (O ++ extra) = matchedOutcome r extra.
Proof.
  induction O as [|p O IH]; cbn [matchedOutcome app]; [done|].
  by destruct (Js.ge r (minRoll p) && Js.le r (maxRoll p)).
Qed.

(** X1. The scan returns nothing exactly when no range of the list
    holds the roll; and a range it returns is a range of the list that
    holds the roll, with no holding range listed before it. *)
Theorem matchedOutcome_characterised (r : Z) (O : list OutcomeRange) :
  (matchedOutcome r O = None ↔ ∀ o, o ∈ O → ¬ holds r o)
  ∧ (∀ o, matchedOutcome r O = Some o →
       o ∈ O ∧ holds r o
       ∧ ∃ before after, O = before ++ o :: after
           ∧ ∀ p, p ∈ before → ¬ holds r p).
Proof.
  split.
  - split.
    + intros Hnone o Ho Hholds.
      apply list_elem_of_split in Ho as (before & after & ->).
      assert (Hsome : ∃ found, matchedOutcome r (before ++ o :: after) = Some found).
      { clear Hnone. induction before as [|p before IH]; cbn [matchedOutcome app].
        - apply holds_test in Hholds. rewrite Hholds. by eexists.
        - destruct (Js.ge r (minRoll p) && Js.le r (maxRoll p)); [by eexists|exact IH]. }
      destruct Hsome as [found Hfound]. congruence.
    + intros Hnone. apply matchedOutcome_none. by apply Forall_forall.
  - intros o (before & after & -> & Hbefore & Ho)%matchedOutcome_Some.
    split; [apply elem_of_app; right; apply list_elem_of_here|].
    split; [exact Ho|]. exists before, after. split; [reflexivity|].
    by apply Forall_forall.
Qed.

(** X2. Removing a range that is listed after the one a roll matches
    does not change what that roll resolves to. *)
Theorem onRemoveOutcomeClick_after_match `{I18n}
  (this : Item) (dataset_index : option string) (i : nat) (r : Z)
  (before after : list OutcomeRange) (o : OutcomeRange) :
  outcomes (system this) = before ++ o :: after →
  Forall (λ p, ¬ holds r p) before → holds r o →
  Js.parseInt dataset_index = Js.Int (Z.of_nat i) →
  (length before < i)%nat →
  outcomeText r (outcomes (system (itemAfter (onRemoveOutcomeClick dataset_index) this)))
  = outcomeText r (outcomes (system this)).
Proof.
  intros Hos Hbefore Ho Hparse Hi.
  unfold itemAfter. rewrite onRemoveOutcomeClick_paths. cbn. rewrite Hparse, Hos.
  set (O := before ++ o :: after).
  assert (Hshape : ∃ rest, Js.splice O (Js.Int (Z.of_nat i)) 1 = before ++ o :: rest).
  { destruct (decide (i < length O)%nat) as [Hin | Hout].
    - rewrite splice_one_valid by exact Hin. rewrite delete_take_drop.
      unfold O. rewrite take_app_ge by lia.
      destruct (i - length before)%nat as [|m] eqn:Hm; [lia|]. cbn [take].
      rewrite <- app_assoc. cbn. by eexists.
    - rewrite splice_one_beyond by lia. by eexists. }
  destruct Hshape as [rest ->]. unfold outcomeText, O.
  by rewrite !matchedOutcome_first.
Qed.

(** X3. After a click on the add button, a roll that matched a range
    still resolves to the description of that range. *)
Theorem onAddOutcomeClick_keeps_matches `{I18n} (this : Item) (r : Z) (o : OutcomeRange) :
  matchedOutcome r (outcomes (system this)) = Some o →
  outcomeText r (outcomes (system (itemAfter onAddOutcomeClick this)))
  = description o.
Proof.
  intros Hmatch. unfold itemAfter. rewrite onAddOutcomeClick_paths. cbn.
  unfold outcomeText. by rewrite (matchedOutcome_app_Some _ _ _ _ Hmatch).
Qed.

(** X4. After a click on the add button every roll from 1 to 20 matches
    a range; a roll that no range held before matches the range just
    added. *)
Theorem onAddOutcomeClick_catches_d20 (this : Item) (r : Z) :
  (1 ≤ r ≤ 20)%Z →
  ∃ o, matchedOutcome r (outcomes (system (itemAfter onAddOutcomeClick this))) = Some o
    ∧ (matchedOutcome r (outcomes (system this)) = None → o = defaultOutcome).
Proof.
  intros Hr. unfold itemAfter. rewrite onAddOutcomeClick_paths. cbn.
  destruct (matchedOutcome r (outcomes (system this))) as [o|] eqn:Hmatch.
  - exists o. split; [by apply matchedOutcome_app_Some|discriminate].
  - exists defaultOutcome. split; [|done].
    rewrite matchedOutcome_app_None by exact Hmatch.
    apply (matchedOutcome_first r [] defaultOutcome []); [constructor|].
    unfold holds; cbn; lia.
Qed.

(** X5. On a newly created item a roll from 1 to 20 is held by exactly
    one range, and a roll outside 1 to 20 by none: the default ranges
    neither overlap nor leave a gap for the default die. *)
Theorem createItem_ranges_partition_d20 (label : string) (owner : option string) (r : Z) :
  ∃ item, createItem label owner = Some item
    ∧ ((1 ≤ r ≤ 20)%Z →
         ∃ o, matchedOutcome r (outcomes (system item)) = Some o
           ∧ ∀ p, p ∈ outcomes (system item) → holds r p → p = o)
    ∧ (¬ (1 ≤ r ≤ 20)%Z → matchedOutcome r (outcomes (system item)) = None).
Proof.
  eexists. split; [reflexivity|]. cbn [system outcomes]. split.
  - intros Hr.
    assert (Hone : ∀ o p : OutcomeRange,
               p ∈ [mkOutcome 1 7 ""; mkOutcome 8 15 ""; mkOutcome 16 20 ""] →
               o ∈ [mkOutcome 1 7 ""; mkOutcome 8 15 ""; mkOutcome 16 20 ""] →
               holds r o → holds r p → p = o).
    { intros o p Hp Ho Hro Hrp. unfold holds in Hro, Hrp.
      repeat (apply elem_of_cons in Hp as [-> | Hp]);
        try (by apply elem_of_nil in Hp);
        repeat (apply elem_of_cons in Ho as [-> | Ho]);
        try (by apply elem_of_nil in Ho);
        first [reflexivity | cbn in Hro, Hrp; lia]. }
    assert ((1 ≤ r ≤ 7) ∨ (8 ≤ r ≤ 15) ∨ (16 ≤ r ≤ 20))%Z as [Hb | [Hb | Hb]] by lia.
    + exists (mkOutcome 1 7 ""). split.
      * apply (matchedOutcome_first r [] _ [_; _]); [constructor|].
        unfold holds; cbn; lia.
      * intros p Hp Hholds. apply (Hone _ _ Hp); [|unfold holds; cbn; lia|exact Hholds].
        apply list_elem_of_here.
    + exists (mkOutcome 8 15 ""). split.
      * apply (matchedOutcome_first r [_] _ [_]);
          [repeat constructor|]; unfold holds; cbn; lia.
      * intros p Hp Hholds. apply (Hone _ _ Hp); [|unfold holds; cbn; lia|exact Hholds].
        apply elem_of_cons. right. apply list_elem_of_here.
    + exists (mkOutcome 16 20 ""). split.
      * apply (matchedOutcome_first r [_; _] _ []);
          [repeat constructor|]; unfold holds; cbn; lia.
      * intros p Hp Hholds. apply (Hone _ _ Hp); [|unfold holds; cbn; lia|exact Hholds].
        do 2 (apply elem_of_cons; right). apply list_elem_of_here.
  - intros Hr. apply matchedOutcome_none.
    repeat constructor; unfold holds; cbn; lia.
Qed.

(** *** The remove button on any [data-index] *)

Lemma delete_beyond {A} (l : list A) (i : nat) : (length l ≤ i)%nat → delete i l = l.
Proof.
  intros Hi. rewrite delete_take_drop, take_ge, drop_ge by lia. apply app_nil_r.
Qed.

(** An index below minus the length is clamped to position 0. *)
Lemma splice_one_below {A} (l : list A) (i : Z) :
  (i < - Z.of_nat (length l))%Z → Js.splice l (Js.Int i) 1 = drop 1 l.
Proof.
  intros Hi. unfold Js.splice. cbn [Js.toIntegerOrInfinity].
  destruct (Z.ltb_spec i 0) as [_|Hpos]; [|lia].
  rewrite Z.max_r by lia. cbn [Z.to_nat take app].
  destruct l as [|x l]; [reflexivity|].
  replace (0 + Z.min (Z.max 1 0) (Z.of_nat (length (x :: l)) - 0))%Z with 1%Z
    by (cbn [length]; lia).
  reflexivity.
Qed.

(** Whatever the start, [splice(start, 1)] leaves the array with at most
    one position cut out. *)
Lemma splice_one_shape {A} (l : list A) (start : Js.number) :
  ∃ a b : nat, Js.splice l start 1 = take a l ++ drop b l
    ∧ (a ≤ b ≤ S a)%nat ∧ (a ≤ length l)%nat.
Proof.
  unfold Js.splice.
  set (len := Z.of_nat (length l)).
  set (s := if (Js.toIntegerOrInfinity start <? 0)%Z
            then Z.max (len + Js.toIntegerOrInfinity start) 0
            else Z.min (Js.toIntegerOrInfinity start) len).
  assert (Hs : (0 ≤ s ≤ len)%Z).
  { unfold s. destruct (Z.ltb_spec (Js.toIntegerOrInfinity start) 0); lia. }
  exists (Z.to_nat s), (Z.to_nat (s + Z.min (Z.max 1 0) (len - s))).
  split; [reflexivity|]. unfold len in *. lia.
Qed.

Lemma onRemoveOutcomeClick_outcomes (dataset_index : option string) (this : Item) :
  outcomes (system (itemAfter (onRemoveOutcomeClick dataset_index) this))
  = Js.splice (outcomes (system this)) (Js.parseInt dataset_index) 1.
Proof. reflexivity. Qed.

Lemma splice_one_sublist {A} (l : list A) (start : Js.number) :
  Js.splice l start 1 `sublist_of` l
  ∧ (length (Js.splice l start 1) ≤ length l ≤ S (length (Js.splice l start 1)))%nat.
Proof.
  destruct (splice_one_shape l start) as (a & b & -> & Hab & Ha). split.
  - rewrite <- (take_drop a l) at 3.
    apply sublist_app; [done|].
    replace b with (a + (b - a))%nat by lia.
    rewrite <- drop_drop. apply sublist_drop.
  - rewrite length_app, length_take, length_drop. lia.
Qed.

(** X6. Whatever the [data-index] of the button (a number, anything
    else, or none at all), a click on remove never adds, alters or
    reorders a range, and takes away at most one: the list after is the
    list before with at most one position left out. *)
Theorem onRemoveOutcomeClick_at_most_one (this : Item) (dataset_index : option string) :
  let os := outcomes (system this) in
  let os' := outcomes (system (itemAfter (onRemoveOutcomeClick dataset_index) this)) in
  os' `sublist_of` os
  ∧ (length os' ≤ length os ≤ S (length os'))%nat.
Proof.
  cbn zeta. rewrite onRemoveOutcomeClick_outcomes. apply splice_one_sublist.
Qed.

(** X7. A negative [data-index] counts from the end of the list: index
    [-k], for [k] from 1 to the length, removes the range [k] places
    before the end, so -1 removes the last range. *)
Theorem onRemoveOutcomeClick_negative_index
  (this : Item) (dataset_index : option string) (k : nat) :
  Js.parseInt dataset_index = Js.Int (- Z.of_nat k) →
  (0 < k ≤ length (outcomes (system this)))%nat →
  outcomes (system (itemAfter (onRemoveOutcomeClick dataset_index) this))
  = delete (length (outcomes (system this)) - k) (outcomes (system this)).
Proof.
  intros Hparse Hk. rewrite onRemoveOutcomeClick_outcomes, Hparse.
  by apply splice_one_from_end.
Qed.

(** X8. When the [data-index] is missing or holds no number, or holds
    an integer below minus the length, a click on remove takes the
    first range away. *)
Theorem onRemoveOutcomeClick_no_number_removes_first
  (this : Item) (dataset_index : option string) :
  Js.parseInt dataset_index = Js.NaN
  ∨ (∃ i, Js.parseInt dataset_index = Js.Int i
          ∧ (i < - Z.of_nat (length (outcomes (system this))))%Z) →
  outcomes (system (itemAfter (onRemoveOutcomeClick dataset_index) this))
  = drop 1 (outcomes (system this)).
Proof.
  rewrite onRemoveOutcomeClick_outcomes.
  intros [-> | (i & -> & Hi)]; [apply splice_one_NaN | by apply splice_one_below].
Qed.

(** X9. When the [data-index] is the decimal writing of a position [i],
    a click on remove takes away the range at [i] and no other; when
    [i] is no position of the list, nothing is taken away. *)
Theorem onRemoveOutcomeClick_decimal_index (this : Item) (i : nat) :
  outcomes (system (itemAfter (onRemoveOutcomeClick (Some (pretty i))) this))
  = delete i (outcomes (system this))
  ∧ ((length (outcomes (system this)) ≤ i)%nat →
     itemAfter (onRemoveOutcomeClick (Some (pretty i))) this = this).
Proof.
  rewrite onRemoveOutcomeClick_outcomes, parseInt_pretty_nat.
  destruct (decide (i < length (outcomes (system this)))%nat) as [Hin | Hout].
  - split; [by apply splice_one_valid|lia].
  - assert (Hsame : Js.splice (outcomes (system this)) (Js.Int (Z.of_nat i)) 1
                    = outcomes (system this)) by (apply splice_one_beyond; lia).
    split; [by rewrite Hsame, delete_beyond by lia|].
    intros _. unfold itemAfter. rewrite onRemoveOutcomeClick_paths. cbn zeta.
    rewrite parseInt_pretty_nat, Hsame. cbn. apply applyChange_same_outcomes.
Qed.

(** X10. Add, then remove at the position just added (the old length)
    or at index -1, gives back the item as it was. *)
Theorem onAddOutcomeClick_then_remove (this : Item) :
  itemAfter (onRemoveOutcomeClick (Some (pretty (length (outcomes (system this))))))
    (itemAfter onAddOutcomeClick this) = this
  ∧ itemAfter (onRemoveOutcomeClick (Some "-1")) (itemAfter onAddOutcomeClick this)
    = this.
Proof.
  assert (Hadded : outcomes (system (itemAfter onAddOutcomeClick this))
                   = outcomes (system this) ++ [defaultOutcome]) by reflexivity.
  assert (Hback : ∀ dataset_index,
             Js.splice (outcomes (system this) ++ [defaultOutcome])
               (Js.parseInt dataset_index) 1 = outcomes (system this) →
             itemAfter (onRemoveOutcomeClick dataset_index)
               (itemAfter onAddOutcomeClick this) = this).
  { intros dataset_index Hsplice. unfold itemAfter at 1.
    rewrite onRemoveOutcomeClick_paths. cbn zeta. rewrite Hadded, Hsplice.
    by destruct this as [n a []]. }
  assert (Hlast : delete (length (outcomes (system this)))
                     (outcomes (system this) ++ [defaultOutcome])
                   = outcomes (system this)).
  { rewrite delete_middle. apply app_nil_r. }
  split; apply Hback.
  - rewrite parseInt_pretty_nat, splice_one_valid by (rewrite length_app; cbn; lia).
    exact Hlast.
  - change (Js.parseInt (Some "-1")) with (Js.Int (- Z.of_nat 1)).
    rewrite splice_one_from_end by (rewrite length_app; cbn; lia).
    replace (length (outcomes (system this) ++ [defaultOutcome]) - 1)%nat
      with (length (outcomes (system this))) by (rewrite length_app; cbn; lia).
    exact Hlast.
Qed.

(** *** A roll that goes through, and what follows it *)

Section Rolls.
Context `{I18n} `{NumberToString}.

Lemma occurrences_app (kind : Effect → bool) (effs1 effs2 : list Effect) :
  occurrences kind (effs1 ++ effs2) = (occurrences kind effs1 + occurrences kind effs2)%nat.
Proof. unfold occurrences. by rewrite List.filter_app, length_app. Qed.

(** X12. A roll posts its chat message only once its update has gone
    through: there is at most one of each, never a chat message without
    the update, and exactly one of each when no failure is reported. *)
Theorem rollDowntimeActivity_update_with_chat (evaluate : DiceEngine) (this : Item) :
  let effs := effectsOf (rollDowntimeActivity evaluate) this in
  (occurrences isChat effs ≤ occurrences isUpdate effs ≤ 1)%nat
  ∧ (¬ reportsFailure effs →
     occurrences isUpdate effs = 1%nat ∧ occurrences isChat effs = 1%nat).
Proof.
  cbn zeta. unfold effectsOf, reportsFailure.
  rewrite rollDowntimeActivity_paths. cbn zeta.
  assert (Hcaught : ∀ err_message before,
             ∃ message, Notification warn message ∈ before ++ caught err_message
                        ∨ Notification error message ∈ before ++ caught err_message).
  { intros err_message before. eexists. right. apply elem_of_app. right.
    apply elem_of_cons. right. apply list_elem_of_here. }
  destruct (Js.truthy (rollDie (system this))).
  - destruct (evaluate (rollDie (system this)))
      as [roll|err_message|roll [] err_message].
    + split; [cbn; lia|]. intros _. by split.
    + split; [cbn; lia|]. intros Hno. destruct Hno. apply (Hcaught _ []).
    + split; [cbn; lia|]. intros Hno. destruct Hno. apply Hcaught.
    + split; [cbn; lia|]. intros Hno. destruct Hno. apply Hcaught.
    + split; [cbn; lia|]. intros Hno. destruct Hno. apply Hcaught.
  - split; [cbn; lia|]. intros Hno. destruct Hno. eexists. left.
    apply list_elem_of_here.
Qed.

(** X13. Marking the activity complete after a roll that went through
    posts a chat message that carries the text that roll resolved to. *)
Theorem performActivity_reports_last_roll (evaluate : DiceEngine) (this : Item) (roll : Roll) :
  Js.truthy (rollDie (system this)) = true →
  evaluate (rollDie (system this)) = Resolved roll →
  ChatMessageCreate
    (format "DOWNTIME.ActivityCompletedChat"
       [("name", VString (name this));
        ("outcome", VString (outcomeText (total roll) (outcomes (system this))))])
    (actor this) None
  ∈ effectsOf performActivity (itemAfter (rollDowntimeActivity evaluate) this).
Proof.
  intros Hset Hroll. unfold itemAfter, effectsOf.
  rewrite rollDowntimeActivity_paths. cbn zeta. rewrite Hset, Hroll.
  rewrite performActivity_paths. cbn.
  apply elem_of_cons. right. apply list_elem_of_here.
Qed.

(** X14. The last roll that goes through wins: the item after two rolls
    is the item after the second roll alone, whatever the first one
    did. *)
Theorem rollDowntimeActivity_last_wins (first second : DiceEngine) (this : Item) (roll : Roll) :
  Js.truthy (rollDie (system this)) = true →
  second (rollDie (system this)) = Resolved roll →
  itemAfter (rollDowntimeActivity second) (itemAfter (rollDowntimeActivity first) this)
  = itemAfter (rollDowntimeActivity second) this.
Proof.
  intros Hset Hroll. unfold itemAfter.
  rewrite (rollDowntimeActivity_paths first this). cbn zeta. rewrite Hset.
  destruct (first (rollDie (system this))) as [roll1|err_message|roll1 [] err_message];
    rewrite !rollDowntimeActivity_paths; cbn; rewrite Hset, Hroll; reflexivity.
Qed.

(** *** Sequences of clicks *)

Lemma onClick_details (c : Click) (this : Item) :
  details (itemAfter (onClick c) this) = details this.
Proof.
  destruct c as [|evaluate| |dataset_index]; try reflexivity.
  unfold itemAfter, onClick, onRollClick, mbind, host_bind, emit. cbn.
  rewrite rollDowntimeActivity_paths. cbn zeta.
  destruct (Js.truthy _); [|reflexivity].
  by destruct (evaluate _) as [roll|err_message|roll [] err_message].
Qed.

Lemma onClick_outcomes (c : Click) (this : Item) :
  outcomes (system (itemAfter (onClick c) this))
  = match c with
    | AddOutcomeButton => outcomes (system this) ++ [defaultOutcome]
    | RemoveOutcomeButton dataset_index =>
        Js.splice (outcomes (system this)) (Js.parseInt dataset_index) 1
    | _ => outcomes (system this)
    end.
Proof.
  destruct c as [|evaluate| |dataset_index]; try reflexivity.
  unfold itemAfter, onClick, onRollClick, mbind, host_bind, emit. cbn.
  rewrite rollDowntimeActivity_paths. cbn zeta.
  destruct (Js.truthy _); [|reflexivity].
  by destruct (evaluate _) as [roll|err_message|roll [] err_message].
Qed.

Lemma onClick_effects (c : Click) (this : Item) :
  ∃ middle, effectsOf (onClick c) this = PreventDefault :: middle ++ [Render true]
    ∧ occurrences isRender middle = 0%nat
    ∧ occurrences isPreventDefault middle = 0%nat
    ∧ (occurrences isUpdate middle ≤ 1)%nat.
Proof.
  destruct c as [|evaluate| |dataset_index].
  - eexists [_; _; _]. split; [reflexivity|]. cbn. lia.
  - unfold effectsOf, onClick, onRollClick, mbind, host_bind, emit. cbn.
    rewrite rollDowntimeActivity_paths. cbn zeta.
    destruct (Js.truthy _).
    + destruct (evaluate _) as [roll|err_message|roll [] err_message].
      * eexists [_; _; _]. split; [reflexivity|]. cbn. lia.
      * eexists [_; _]. split; [reflexivity|]. cbn. lia.
      * eexists [_; _]. split; [reflexivity|]. cbn. lia.
      * eexists [_; _; _]. split; [reflexivity|]. cbn. lia.
      * eexists [_; _; _; _]. split; [reflexivity|]. cbn. lia.
    + eexists [_]. split; [reflexivity|]. cbn. lia.
  - eexists [_]. split; [reflexivity|]. cbn. lia.
  - eexists [_]. split; [reflexivity|]. cbn. lia.
Qed.

(** X15. No sequence of clicks on the sheet's buttons changes the name
    or owner of the item, or its description, duration, cost or roll
    expression. *)
Theorem session_keeps_details (clicks : list Click) (this : Item) :
  details (itemAfter (session clicks) this) = details this.
Proof.
  revert this. induction clicks as [|c clicks IH]; intros this; [reflexivity|].
  cbn [session]. rewrite itemAfter_bind, IH. apply onClick_details.
Qed.

(** X16. Rolls and completions leave the list of ranges alone: over a
    sequence of clicks with no add and no remove among them, [outcomes]
    stays what it was. *)
Theorem session_keeps_outcomes (clicks : list Click) (this : Item) :
  Forall (λ c, isListButton c = false) clicks →
  outcomes (system (itemAfter (session clicks) this)) = outcomes (system this).
Proof.
  intros Hclicks. revert this.
  induction Hclicks as [|c clicks Hc _ IH]; intros this; [reflexivity|].
  cbn [session]. rewrite itemAfter_bind, IH, onClick_outcomes.
  by destruct c.
Qed.

(** X17. The buttons never edit a range: after any sequence of clicks,
    every range of the item is one it had at the start or is the
    default range (1, 20, no text) of the add button. *)
Theorem session_ranges_provenance (clicks : list Click) (this : Item) (o : OutcomeRange) :
  o ∈ outcomes (system (itemAfter (session clicks) this)) →
  o ∈ outcomes (system this) ∨ o = defaultOutcome.
Proof.
  revert this. induction clicks as [|c clicks IH]; intros this; [by left|].
  cbn [session]. rewrite itemAfter_bind. intros Hin.
  apply IH in Hin as [Hin | ->]; [|by right].
  rewrite onClick_outcomes in Hin. destruct c as [|evaluate| |dataset_index].
  - by left.
  - by left.
  - apply elem_of_app in Hin as [Hin | Hin]; [by left|].
    right. by apply list_elem_of_singleton in Hin.
  - left. eapply elem_of_sublist; [exact Hin|]. apply splice_one_sublist.
Qed.

(** X18. Every click is answered by exactly one [preventDefault] and
    exactly one re-render, also a roll that fails, and by at most one
    update: over a sequence of clicks there are as many re-renders as
    clicks. *)
Theorem session_renders_once_per_click (clicks : list Click) (this : Item) :
  let effs := effectsOf (session clicks) this in
  occurrences isRender effs = length clicks
  ∧ occurrences isPreventDefault effs = length clicks
  ∧ (occurrences isUpdate effs ≤ length clicks)%nat.
Proof.
  cbn zeta. revert this. induction clicks as [|c clicks IH]; intros this.
  - cbn. lia.
  - cbn [session length]. rewrite effectsOf_bind.
    destruct (onClick_effects c this) as (middle & -> & Hr & Hp & Hu).
    specialize (IH (itemAfter (onClick c) this)).
    change (PreventDefault :: middle ++ [Render true])
      with ([PreventDefault] ++ middle ++ [Render true]).
    rewrite !occurrences_app, Hr, Hp. cbn. lia.
Qed.

(** X19. Marking complete commutes with every other click, as far as
    the item goes: complete-then-click and click-then-complete leave the
    same item. *)
Theorem onCompleteClick_commutes (c : Click) (this : Item) :
  itemAfter onCompleteClick (itemAfter (onClick c) this)
  = itemAfter (onClick c) (itemAfter onCompleteClick this).
Proof.
  destruct c as [|evaluate| |dataset_index]; try reflexivity.
  unfold itemAfter, onClick, onRollClick, mbind, host_bind, emit. cbn.
  rewrite !rollDowntimeActivity_paths. cbn.
  destruct (Js.truthy _); [|reflexivity].
  by destruct (evaluate _) as [roll|err_message|roll [] err_message].
Qed.

End Rolls.

(** *** Removing a range and the rolls it does not concern *)

Lemma matchedOutcome_skip (r : Z) (l1 l2 : list OutcomeRange) (p : OutcomeRange) :
  ¬ holds r p → matchedOutcome r (l1 ++ p :: l2) = matchedOutcome r (l1 ++ l2).
Proof.
  intros Hp. induction l1 as [|q l1 IH]; cbn [matchedOutcome app].
  - destruct (Js.ge r (minRoll p) && Js.le r (maxRoll p)) eqn:E; [|reflexivity].
    apply holds_test in E. contradiction.
  - by rewrite IH.
Qed.

(** X20. Removing a range that does not hold a roll changes nothing to
    what that roll resolves to, wherever the range stood in the list. *)
Theorem onRemoveOutcomeClick_other_range `{I18n}
  (this : Item) (dataset_index : option string) (i : nat) (r : Z) (p : OutcomeRange) :
  Js.parseInt dataset_index = Js.Int (Z.of_nat i) →
  outcomes (system this) !! i = Some p →
  ¬ holds r p →
  outcomeText r (outcomes (system (itemAfter (onRemoveOutcomeClick dataset_index) this)))
  = outcomeText r (outcomes (system this)).
Proof.
  intros Hparse Hp Hnot. rewrite onRemoveOutcomeClick_outcomes, Hparse.
  rewrite splice_one_valid by (by eapply lookup_lt_Some).
  rewrite delete_take_drop. unfold outcomeText.
  rewrite <- (take_drop_middle _ _ _ Hp) at 3.
  by rewrite matchedOutcome_skip.
Qed.

(** X21. Removing the first range that holds a roll hands the roll to
    the ranges listed after it: the roll then resolves as it would on
    those alone. *)
Theorem onRemoveOutcomeClick_matched_range `{I18n}
  (this : Item) (dataset_index : option string) (r : Z)
  (before after : list OutcomeRange) (o : OutcomeRange) :
  outcomes (system this) = before ++ o :: after →
  Forall (λ p, ¬ holds r p) before →
  Js.parseInt dataset_index = Js.Int (Z.of_nat (length before)) →
  outcomeText r (outcomes (system (itemAfter (onRemoveOutcomeClick dataset_index) this)))
  = outcomeText r after.
Proof.
  intros Hos Hbefore Hparse. rewrite onRemoveOutcomeClick_outcomes, Hparse, Hos.
  rewrite splice_one_valid by (rewrite length_app; cbn; lia).
  rewrite delete_middle. unfold outcomeText.
  by rewrite matchedOutcome_app_None by (by apply matchedOutcome_none).
Qed.

(** *** The further statements with premises, on concrete inputs *)

Lemma onRemoveOutcomeClick_after_match_witness :
  outcomeText (H := untranslated) 3
    (outcomes (system (itemAfter (onRemoveOutcomeClick (Some "2")) carousing)))
  = outcomeText (H := untranslated) 3 (outcomes (system carousing)).
Proof.
  apply (onRemoveOutcomeClick_after_match (H := untranslated) carousing (Some "2") 2 3
           [] [mkOutcome 8 15 ""; mkOutcome 16 20 ""] (mkOutcome 1 7 "")).
  - reflexivity.
  - constructor.
  - unfold holds; cbn; lia.
  - reflexivity.
  - cbn; lia.
Defined.

Lemma onAddOutcomeClick_keeps_matches_witness :
  outcomeText (H := untranslated) 9
    (outcomes (system (itemAfter onAddOutcomeClick carousing))) = "".
Proof.
  apply (onAddOutcomeClick_keeps_matches (H := untranslated) carousing 9
           (mkOutcome 8 15 "")).
  reflexivity.
Defined.

Lemma onAddOutcomeClick_catches_d20_witness :
  ∃ o, matchedOutcome 13
         (outcomes (system (itemAfter onAddOutcomeClick
                              (applyChange (SystemOutcomes []) carousing)))) = Some o
    ∧ (matchedOutcome 13 (outcomes (system (applyChange (SystemOutcomes []) carousing)))
       = None → o = defaultOutcome).
Proof.
  apply (onAddOutcomeClick_catches_d20 (applyChange (SystemOutcomes []) carousing) 13).
  lia.
Defined.

Lemma onRemoveOutcomeClick_negative_index_witness :
  outcomes (system (itemAfter (onRemoveOutcomeClick (Some "-2")) carousing))
  = [mkOutcome 1 7 ""; mkOutcome 16 20 ""].
Proof.
  apply (onRemoveOutcomeClick_negative_index carousing (Some "-2") 2).
  - reflexivity.
  - cbn; lia.
Defined.

Lemma onRemoveOutcomeClick_no_number_removes_first_witness :
  outcomes (system (itemAfter (onRemoveOutcomeClick (Some "-9")) carousing))
  = [mkOutcome 8 15 ""; mkOutcome 16 20 ""]
  ∧ outcomes (system (itemAfter (onRemoveOutcomeClick None) carousing))
    = [mkOutcome 8 15 ""; mkOutcome 16 20 ""].
Proof.
  split.
  - apply (onRemoveOutcomeClick_no_number_removes_first carousing (Some "-9")).
    right. exists (-9)%Z. split; [reflexivity|cbn; lia].
  - apply (onRemoveOutcomeClick_no_number_removes_first carousing None).
    left. reflexivity.
Defined.

Lemma performActivity_reports_last_roll_witness :
  ChatMessageCreate "DOWNTIME.ActivityCompletedChat" None None
  ∈ effectsOf (performActivity (H := untranslated))
      (itemAfter (rollDowntimeActivity (H := untranslated) (loaded 4)) carousing).
Proof.
  apply (performActivity_reports_last_roll (H := untranslated) (loaded 4) carousing
           (mkRoll (Some "1d20") 4) eq_refl eq_refl).
Defined.

Lemma rollDowntimeActivity_last_wins_witness :
  itemAfter (rollDowntimeActivity (H := untranslated) (loaded 25))
    (itemAfter (rollDowntimeActivity (H := untranslated) broken) carousing)
  = itemAfter (rollDowntimeActivity (H := untranslated) (loaded 25)) carousing.
Proof.
  apply (rollDowntimeActivity_last_wins (H := untranslated) broken (loaded 25) carousing
           (mkRoll (Some "1d20") 25) eq_refl eq_refl).
Defined.

Lemma session_keeps_outcomes_witness :
  outcomes
    (system
       (itemAfter
          (session (H := untranslated)
             [RollButton (loaded 17); CompleteButton; RollButton broken])
          carousing))
  = outcomes (system carousing).
Proof.
  apply (session_keeps_outcomes (H := untranslated)). repeat constructor.
Defined.

Lemma session_ranges_provenance_witness :
  mkOutcome 1 20 "" ∈ outcomes (system carousing) ∨ mkOutcome 1 20 "" = defaultOutcome.
Proof.
  apply (session_ranges_provenance (H := untranslated)
           [AddOutcomeButton; RemoveOutcomeButton (Some "0"); RollButton (loaded 2)]
           carousing (mkOutcome 1 20 "")).
  cbn. apply elem_of_cons. right. apply elem_of_cons. right. apply list_elem_of_here.
Defined.

Lemma onRemoveOutcomeClick_other_range_witness :
  outcomeText (H := untranslated) 18
    (outcomes (system (itemAfter (onRemoveOutcomeClick (Some "0")) carousing)))
  = outcomeText (H := untranslated) 18 (outcomes (system carousing)).
Proof.
  apply (onRemoveOutcomeClick_other_range (H := untranslated) carousing (Some "0") 0 18
           (mkOutcome 1 7 "")).
  - reflexivity.
  - reflexivity.
  - unfold holds; cbn; lia.
Defined.

Lemma onRemoveOutcomeClick_matched_range_witness :
  outcomeText (H := untranslated) 9
    (outcomes (system (itemAfter (onRemoveOutcomeClick (Some "1")) carousing)))
  = outcomeText (H := untranslated) 9 [mkOutcome 16 20 ""].
Proof.
  apply (onRemoveOutcomeClick_matched_range (H := untranslated) carousing (Some "1") 9
           [mkOutcome 1 7 ""] [mkOutcome 16 20 ""] (mkOutcome 8 15 "")).
  - reflexivity.
  - constructor; [|constructor]. unfold holds; cbn; lia.
  - reflexivity.
Defined.
